(** * twlog-who-said: the configuration gate [config.Config]

    A shallow embedding of [src/config/config.go] (package [config]):
    the default factory [NewConfig], the validator [Config.Validate]
    and the helper [isOneOf], followed by the properties the
    specification states about them.

    Go strings are byte sequences and are modelled by [string]; Go's
    [int] is modelled by [Z] (the code only compares it); a
    [*regexp.Regexp] that may be [nil] is an [option].  Everything the
    package imports from outside the repository ([regexp], [os],
    [runtime], the Unicode tables behind [strings.ToLower]) is gathered
    in the class [Host]. *)

From Stdlib Require Import String Ascii List Bool ZArith Lia PeanoNat.
Import ListNotations.

Local Open Scope string_scope.
Local Open Scope Z_scope.

(** ** The host: what the package imports *)

(** [os.FileInfo], of which the code only reads [IsDir()]. *)
Record FileInfo : Type := mkFileInfo { IsDir : bool }.

Class Host : Type := mkHost {
  (** [regexp.Regexp], a compiled pattern *)
  Regexp : Type;
  (** the [error] values produced by [regexp] and [os] *)
  HostError : Type;
  (** [regexp.Compile] *)
  regexp_Compile : string -> Regexp + HostError;
  (** [Regexp.MatchString] *)
  MatchString : Regexp -> string -> bool;
  (** [os.Stat] *)
  os_Stat : string -> FileInfo + HostError;
  (** [runtime.NumCPU] *)
  runtime_NumCPU : Z;
  (** [strings.Map(unicode.ToLower, s)], the slow path of
      [strings.ToLower], taken when [s] has a byte above 0x7F *)
  unicode_ToLower : string -> string
}.

(** ** [strings.ToLower] *)

Module strings.

(** [c >= utf8.RuneSelf] is false *)
Definition isASCIIbyte (c : ascii) : bool := (nat_of_ascii c <? 128)%nat.

Fixpoint isASCII (s : string) : bool :=
  match s with
  | EmptyString => true
  | String c s' => isASCIIbyte c && isASCII s'
  end.

(** ['A' <= c && c <= 'Z'], then [c += 'a' - 'A'] *)
Definition lowerByte (c : ascii) : ascii :=
  let n := nat_of_ascii c in
  if ((65 <=? n) && (n <=? 90))%nat then ascii_of_nat (n + 32) else c.

Fixpoint lowerASCII (s : string) : string :=
  match s with
  | EmptyString => EmptyString
  | String c s' => String (lowerByte c) (lowerASCII s')
  end.

Definition ToLower `{Host} (s : string) : string :=
  if isASCII s then lowerASCII s else unicode_ToLower s.

End strings.

(** ** The package [config] *)

Definition FormatJSON : string := "json".
Definition FormatText : string := "text".

Section Config.

Context `{H : Host}.

Record Config : Type := mkConfig {
  PhraseRegex : string;
  PhraseRegexp : option Regexp;
  SearchDir : string;
  FileRegex : string;
  FileRegexp : option Regexp;
  Deduplicate : bool;
  Extended : bool;
  IPsOnly : bool;
  Output : string;
  ArchiveRegex : string;
  ArchiveRegexp : option Regexp;
  IncludeArchives : bool;
  Concurrency : Z
}.

(** The four assignments [cfg.F = v] of the code. *)
Definition set_PhraseRegexp (v : option Regexp) (c : Config) : Config :=
  mkConfig (PhraseRegex c) v (SearchDir c) (FileRegex c) (FileRegexp c)
           (Deduplicate c) (Extended c) (IPsOnly c) (Output c)
           (ArchiveRegex c) (ArchiveRegexp c) (IncludeArchives c)
           (Concurrency c).

Definition set_FileRegexp (v : option Regexp) (c : Config) : Config :=
  mkConfig (PhraseRegex c) (PhraseRegexp c) (SearchDir c) (FileRegex c) v
           (Deduplicate c) (Extended c) (IPsOnly c) (Output c)
           (ArchiveRegex c) (ArchiveRegexp c) (IncludeArchives c)
           (Concurrency c).

Definition set_Output (v : string) (c : Config) : Config :=
  mkConfig (PhraseRegex c) (PhraseRegexp c) (SearchDir c) (FileRegex c)
           (FileRegexp c) (Deduplicate c) (Extended c) (IPsOnly c) v
           (ArchiveRegex c) (ArchiveRegexp c) (IncludeArchives c)
           (Concurrency c).

Definition set_ArchiveRegexp (v : option Regexp) (c : Config) : Config :=
  mkConfig (PhraseRegex c) (PhraseRegexp c) (SearchDir c) (FileRegex c)
           (FileRegexp c) (Deduplicate c) (Extended c) (IPsOnly c)
           (Output c) (ArchiveRegex c) v (IncludeArchives c)
           (Concurrency c).

(** [NewConfig]: the fields the literal does not name take Go's zero
    value. *)
Definition NewConfig : Config :=
  {| PhraseRegex := "";
     PhraseRegexp := None;
     SearchDir := ".";
     FileRegex := ".*\.log$";
     FileRegexp := None;
     Deduplicate := false;
     Extended := false;
     IPsOnly := false;
     Output := FormatText;
     ArchiveRegex := "\.(7z|bz2|gz|tar|xz|zip|xz|zst|lz)$";
     ArchiveRegexp := None;
     IncludeArchives := false;
     Concurrency := Z.max 1 runtime_NumCPU |}.

(** *** Errors

    One constructor per way the code builds an [error]. *)
Inductive error : Type :=
| errors_New (text : string)
  (** [errors.New(text)] *)
| fmt_Errorf_w (text : string) (err : HostError)
  (** [fmt.Errorf(text + "%w", err)] *)
| fmt_Errorf_output (value : string) (allowed : list string).
  (** [fmt.Errorf("invalid output format %q: must be one of %v",
      value, allowed)] *)

(** *** Calls that leave the package *)
Inductive Call : Type :=
| CallCompile (expr : string)
| CallStat (name : string).

(** *** Statements of a method with a pointer receiver

    A block runs on the configuration behind the receiver and on the
    log of the calls made so far; it either falls through with a value
    or executes [return err]. *)
Record State : Type := mkState { cfg_of : Config; calls_of : list Call }.

Inductive Flow (A : Type) : Type :=
| Next (a : A)
| Return (err : error).
Arguments Next {A} a.
Arguments Return {A} err.

Definition M (A : Type) : Type := State -> State * Flow A.

Definition ret {A} (a : A) : M A := fun st => (st, Next a).

Definition bind {A B} (m : M A) (k : A -> M B) : M B :=
  fun st =>
    match m st with
    | (st', Next a) => k a st'
    | (st', Return e) => (st', Return e)
    end.

Definition return_ {A} (e : error) : M A := fun st => (st, Return e).

Definition load : M Config := fun st => (st, Next (cfg_of st)).

Definition store (f : Config -> Config) : M unit :=
  fun st => (mkState (f (cfg_of st)) (calls_of st), Next tt).

Definition call {A} (c : Call) (r : A) : M A :=
  fun st => (mkState (cfg_of st) (calls_of st ++ [c]), Next r).

Definition Compile (expr : string) : M (Regexp + HostError) :=
  call (CallCompile expr) (regexp_Compile expr).

Definition Stat (name : string) : M (FileInfo + HostError) :=
  call (CallStat name) (os_Stat name).

Definition when (b : bool) (m : M unit) : M unit :=
  if b then m else ret tt.

Fixpoint isOneOf (s : string) (values : list string) : bool :=
  match values with
  | [] => false
  | v :: values' => if String.eqb s v then true else isOneOf s values'
  end.

Notation "x <- m ;; k" := (bind m (fun x => k))
  (at level 61, m at next level, right associativity).
Notation "m ;;; k" := (bind m (fun _ => k))
  (at level 61, right associativity).

Definition Validate : M unit :=
  cfg <- load ;;
  when (PhraseRegex cfg =? "")%string
    (return_ (errors_New "regex is required")) ;;;
  r <- Compile (PhraseRegex cfg) ;;
  match r with
  | inr err => return_ (fmt_Errorf_w "invalid regex: " err)
  | inl re =>
  store (set_PhraseRegexp (Some re)) ;;;
  cfg <- load ;;
  when (SearchDir cfg =? "")%string
    (return_ (errors_New "search dir is required")) ;;;
  r <- Stat (SearchDir cfg) ;;
  match r with
  | inr err => return_ (fmt_Errorf_w "invalid search dir: " err)
  | inl fi =>
  when (negb (IsDir fi))
    (return_ (errors_New "search dir is not a directory")) ;;;
  when (FileRegex cfg =? "")%string
    (return_ (errors_New "file regex is required")) ;;;
  r <- Compile (FileRegex cfg) ;;
  match r with
  | inr err => return_ (fmt_Errorf_w "invalid file regex: " err)
  | inl re =>
  store (set_FileRegexp (Some re)) ;;;
  let allowed := [FormatJSON; FormatText] in
  cfg <- load ;;
  let lOutput := strings.ToLower (Output cfg) in
  when (negb (isOneOf lOutput allowed))
    (return_ (fmt_Errorf_output (Output cfg) allowed)) ;;;
  store (set_Output lOutput) ;;;
  cfg <- load ;;
  when (Extended cfg && IPsOnly cfg)
    (return_ (errors_New
                "extended and ips only flags are mutually exclusive")) ;;;
  (if IncludeArchives cfg || negb (ArchiveRegex cfg =? "")%string then
     r <- Compile (ArchiveRegex cfg) ;;
     match r with
     | inr err => return_ (fmt_Errorf_w "invalid archive regex: " err)
     | inl re => store (set_ArchiveRegexp (Some re))
     end
   else ret tt) ;;;
  cfg <- load ;;
  when (Concurrency cfg <? 1)
    (return_ (errors_New "concurrency must be greater than 0")) ;;;
  ret tt
  end end end.

(** A call [err := cfg.Validate()]: the configuration afterwards, the
    calls made, and the returned [error] ([None] is [nil]). *)
Record Outcome : Type := mkOutcome {
  after : Config;
  calls : list Call;
  result : option error
}.

Definition run (m : M unit) (cfg : Config) : Outcome :=
  match m (mkState cfg []) with
  | (st, Next _) => mkOutcome (cfg_of st) (calls_of st) None
  | (st, Return e) => mkOutcome (cfg_of st) (calls_of st) (Some e)
  end.

Definition validate (cfg : Config) : Outcome := run Validate cfg.

End Config.

Arguments Next {H A} a.
Arguments Return {H A} err.
Arguments isOneOf s values : simpl never.

(** ** The conditions of [Validate], one per [if] of its body *)

Section Guards.

Context `{H : Host}.

(** [regexp.Compile(expr)] returns a [nil] error *)
Definition compiles (expr : string) : bool :=
  match regexp_Compile expr with inl _ => true | inr _ => false end.

(** [os.Stat(name)] returns a [nil] error and [fi.IsDir()] holds *)
Definition is_directory (name : string) : bool :=
  match os_Stat name with inl fi => IsDir fi | inr _ => false end.

Definition phrase_required_ok (cfg : Config) : bool :=
  negb (PhraseRegex cfg =? "")%string.
Definition phrase_compiles_ok (cfg : Config) : bool :=
  compiles (PhraseRegex cfg).
Definition search_dir_required_ok (cfg : Config) : bool :=
  negb (SearchDir cfg =? "")%string.
Definition search_dir_exists_ok (cfg : Config) : bool :=
  is_directory (SearchDir cfg).
Definition file_required_ok (cfg : Config) : bool :=
  negb (FileRegex cfg =? "")%string.
Definition file_compiles_ok (cfg : Config) : bool :=
  compiles (FileRegex cfg).
Definition output_ok (cfg : Config) : bool :=
  isOneOf (strings.ToLower (Output cfg)) [FormatJSON; FormatText].
Definition flags_ok (cfg : Config) : bool :=
  negb (Extended cfg && IPsOnly cfg).
Definition archive_checked (cfg : Config) : bool :=
  IncludeArchives cfg || negb (ArchiveRegex cfg =? "")%string.
Definition archive_ok (cfg : Config) : bool :=
  if archive_checked cfg then compiles (ArchiveRegex cfg) else true.
Definition concurrency_ok (cfg : Config) : bool :=
  negb (Concurrency cfg <? 1).

(** The required-field and pattern checks that come first: lines
    45-75 of the source without the [os.Stat] block. *)
Definition required_and_patterns_ok (cfg : Config) : bool :=
  phrase_required_ok cfg && phrase_compiles_ok cfg &&
  search_dir_required_ok cfg &&
  file_required_ok cfg && file_compiles_ok cfg.

(** Control arrives at line 77, [allowed := ...]. *)
Definition reaches_output_check (cfg : Config) : bool :=
  phrase_required_ok cfg && phrase_compiles_ok cfg &&
  search_dir_required_ok cfg && search_dir_exists_ok cfg &&
  file_required_ok cfg && file_compiles_ok cfg.

(** Control arrives at line 84, [if cfg.Extended && cfg.IPsOnly]. *)
Definition reaches_flags_check (cfg : Config) : bool :=
  reaches_output_check cfg && output_ok cfg.

(** Control arrives at line 88, [if cfg.IncludeArchives || ...]. *)
Definition reaches_archive_check (cfg : Config) : bool :=
  reaches_flags_check cfg && flags_ok cfg.

(** Control arrives at line 96, [if cfg.Concurrency < 1]. *)
Definition reaches_concurrency_check (cfg : Config) : bool :=
  reaches_archive_check cfg && archive_ok cfg.

(** The errors of the ten checks, as the code builds them. *)
Definition ErrPhraseRequired : error := errors_New "regex is required".
Definition ErrPhraseInvalid (err : HostError) : error :=
  fmt_Errorf_w "invalid regex: " err.
Definition ErrSearchDirRequired : error :=
  errors_New "search dir is required".
Definition ErrSearchDirInvalid (err : HostError) : error :=
  fmt_Errorf_w "invalid search dir: " err.
Definition ErrSearchDirNotDir : error :=
  errors_New "search dir is not a directory".
Definition ErrFileRequired : error := errors_New "file regex is required".
Definition ErrFileInvalid (err : HostError) : error :=
  fmt_Errorf_w "invalid file regex: " err.
Definition ErrOutputInvalid (value : string) : error :=
  fmt_Errorf_output value [FormatJSON; FormatText].
Definition ErrMutuallyExclusive : error :=
  errors_New "extended and ips only flags are mutually exclusive".
Definition ErrArchiveInvalid (err : HostError) : error :=
  fmt_Errorf_w "invalid archive regex: " err.
Definition ErrConcurrency : error :=
  errors_New "concurrency must be greater than 0".

(** What lines 96-100 return: the last check and [return nil]. *)
Definition concurrency_result (cfg : Config) : option error :=
  if Concurrency cfg <? 1 then Some ErrConcurrency else None.

End Guards.

(** ** The ten checks of the specification, in its order

    A second reading of the validator, written from section 4.2 of the
    specification: ten checks, each a function of the state, run by
    [run_checks] until the first that fails. *)

Section Sequence.

Context `{H : Host}.

Definition Check : Type := State -> State * option error.

Definition logged (c : Call) (st : State) : State :=
  mkState (cfg_of st) (calls_of st ++ [c]).

Definition stored (f : Config -> Config) (st : State) : State :=
  mkState (f (cfg_of st)) (calls_of st).

Definition check_phrase_nonempty : Check := fun st =>
  if (PhraseRegex (cfg_of st) =? "")%string
  then (st, Some ErrPhraseRequired) else (st, None).

Definition check_phrase_compiles : Check := fun st =>
  let p := PhraseRegex (cfg_of st) in
  let st1 := logged (CallCompile p) st in
  match regexp_Compile p with
  | inl re => (stored (set_PhraseRegexp (Some re)) st1, None)
  | inr err => (st1, Some (ErrPhraseInvalid err))
  end.

Definition check_search_dir_nonempty : Check := fun st =>
  if (SearchDir (cfg_of st) =? "")%string
  then (st, Some ErrSearchDirRequired) else (st, None).

Definition check_search_dir_is_directory : Check := fun st =>
  let d := SearchDir (cfg_of st) in
  let st1 := logged (CallStat d) st in
  match os_Stat d with
  | inl fi => if IsDir fi then (st1, None)
              else (st1, Some ErrSearchDirNotDir)
  | inr err => (st1, Some (ErrSearchDirInvalid err))
  end.

Definition check_file_nonempty : Check := fun st =>
  if (FileRegex (cfg_of st) =? "")%string
  then (st, Some ErrFileRequired) else (st, None).

Definition check_file_compiles : Check := fun st =>
  let p := FileRegex (cfg_of st) in
  let st1 := logged (CallCompile p) st in
  match regexp_Compile p with
  | inl re => (stored (set_FileRegexp (Some re)) st1, None)
  | inr err => (st1, Some (ErrFileInvalid err))
  end.

Definition check_output_format : Check := fun st =>
  let value := Output (cfg_of st) in
  let lower := strings.ToLower value in
  if (lower =? "json")%string || (lower =? "text")%string
  then (stored (set_Output lower) st, None)
  else (st, Some (ErrOutputInvalid value)).

Definition check_flags_exclusive : Check := fun st =>
  if Extended (cfg_of st) && IPsOnly (cfg_of st)
  then (st, Some ErrMutuallyExclusive) else (st, None).

Definition check_archive_pattern : Check := fun st =>
  let p := ArchiveRegex (cfg_of st) in
  if IncludeArchives (cfg_of st) || negb (p =? "")%string then
    let st1 := logged (CallCompile p) st in
    match regexp_Compile p with
    | inl re => (stored (set_ArchiveRegexp (Some re)) st1, None)
    | inr err => (st1, Some (ErrArchiveInvalid err))
    end
  else (st, None).

Definition check_concurrency : Check := fun st =>
  if Concurrency (cfg_of st) >=? 1
  then (st, None) else (st, Some ErrConcurrency).

Definition validation_sequence : list Check :=
  [ check_phrase_nonempty; check_phrase_compiles;
    check_search_dir_nonempty; check_search_dir_is_directory;
    check_file_nonempty; check_file_compiles;
    check_output_format; check_flags_exclusive;
    check_archive_pattern; check_concurrency ].

(** Run the checks from left to right; the first error ends the run. *)
Fixpoint run_checks (cs : list Check) (st : State) : State * option error :=
  match cs with
  | [] => (st, None)
  | c :: cs' =>
      match c st with
      | (st', None) => run_checks cs' st'
      | (st', Some e) => (st', Some e)
      end
  end.

Definition outcome_of (r : State * option error) : Outcome :=
  mkOutcome (cfg_of (fst r)) (calls_of (fst r)) (snd r).

Definition validate_by_sequence (cfg : Config) : Outcome :=
  outcome_of (run_checks validation_sequence (mkState cfg [])).

(** The checks [cs], run on [cfg], all pass. *)
Definition passes (cs : list Check) (cfg : Config) : bool :=
  match snd (run_checks cs (mkState cfg [])) with
  | None => true
  | Some _ => false
  end.

End Sequence.

(** ** Go's [strings.HasSuffix] *)

Definition HasSuffix (s suffix : string) : bool :=
  (String.length suffix <=? String.length s)%nat &&
  (substring (String.length s - String.length suffix)
             (String.length suffix) s =? suffix)%string.

(** ** A model of the package [regexp] on a fragment of its syntax

    [regexp.Compile] accepts the RE2 syntax, which is far larger than
    what the defaults of [NewConfig] use.  The fragment modelled here is:
    ASCII literals, a backslash before an ASCII character that is
    neither letter nor digit, groups, alternation, [.*] and [$].  Outside
    the fragment [parse] answers [None], which says nothing about Go.
    Matching is on bytes: a literal of the fragment is one byte, and a
    run of bytes without a newline is a run of characters without a
    newline and conversely, so [.*] is faithful (a lone [.] would not
    be, and is left out). *)

Module GoRegexp.

Inductive re : Type :=
| Empty                  (* the empty pattern *)
| Lit (c : ascii)        (* one literal byte *)
| AnyStar                (* [.*], greedy, no newline *)
| EndText                (* [$] without the flag [m] *)
| Cat (a b : re)
| Alt (a b : re).

Definition newline : ascii := ascii_of_nat 10.

(** [any_star s k]: some prefix of [s] without a newline can be
    consumed so that [k] accepts what is left. *)
Fixpoint any_star (s : string) (k : string -> bool) : bool :=
  k s ||
  match s with
  | EmptyString => false
  | String c s' => negb (Ascii.eqb c newline) && any_star s' k
  end.

(** [accept r s k]: [r] matches a prefix of [s] and [k] accepts the
    rest. *)
Fixpoint accept (r : re) (s : string) (k : string -> bool) : bool :=
  match r with
  | Empty => k s
  | Lit c =>
      match s with
      | String c' s' => Ascii.eqb c c' && k s'
      | EmptyString => false
      end
  | AnyStar => any_star s k
  | EndText =>
      match s with
      | EmptyString => k s
      | String _ _ => false
      end
  | Cat a b => accept a s (fun s' => accept b s' k)
  | Alt a b => accept a s k || accept b s k
  end.

(** [MatchString]: the pattern matches somewhere in [s]. *)
Fixpoint MatchString (r : re) (s : string) : bool :=
  accept r s (fun _ => true) ||
  match s with
  | EmptyString => false
  | String _ s' => MatchString r s'
  end.

Definition isalnum (c : ascii) : bool :=
  let n := nat_of_ascii c in
  ((48 <=? n) && (n <=? 57) || (65 <=? n) && (n <=? 90) ||
   (97 <=? n) && (n <=? 122))%nat.

(** The characters with a meaning of their own in the syntax. *)
Definition ismeta (c : ascii) : bool :=
  existsb (Ascii.eqb c)
    ["\"; "."; "+"; "*"; "?"; "("; ")"; "|"; "["; "]"; "{"; "}"; "^";
     "$"]%char.

Definition cat_with (a : re) (r : option (re * string))
  : option (re * string) :=
  match r with
  | Some (t, rest) => Some (Cat a t, rest)
  | None => None
  end.

(** [parse_cat] reads a concatenation up to [|], [)] or the end;
    [parse_alt] reads alternatives up to [)] or the end. *)
Fixpoint parse_cat (fuel : nat) (s : string) : option (re * string) :=
  match fuel with
  | O => None
  | S fuel' =>
      match s with
      | EmptyString => Some (Empty, s)
      | String c rest =>
          if Ascii.eqb c "|" || Ascii.eqb c ")" then Some (Empty, s)
          else if Ascii.eqb c "(" then
            match rest with
            | String "?" _ => None
            | _ =>
                match parse_alt fuel' rest with
                | Some (g, String ")" rest') =>
                    cat_with g (parse_cat fuel' rest')
                | _ => None
                end
            end
          else if Ascii.eqb c "." then
            match rest with
            | String "*" rest' => cat_with AnyStar (parse_cat fuel' rest')
            | _ => None
            end
          else if Ascii.eqb c "$" then
            cat_with EndText (parse_cat fuel' rest)
          else if Ascii.eqb c "\" then
            match rest with
            | String d rest' =>
                if strings.isASCIIbyte d && negb (isalnum d)
                then cat_with (Lit d) (parse_cat fuel' rest')
                else None
            | EmptyString => None
            end
          else if strings.isASCIIbyte c && negb (ismeta c) then
            cat_with (Lit c) (parse_cat fuel' rest)
          else None
      end
  end
with parse_alt (fuel : nat) (s : string) : option (re * string) :=
  match fuel with
  | O => None
  | S fuel' =>
      match parse_cat fuel' s with
      | Some (a, String "|" rest) =>
          match parse_alt fuel' rest with
          | Some (b, rest') => Some (Alt a b, rest')
          | None => None
          end
      | r => r
      end
  end.

(** Patterns longer than this are left out of the fragment, which
    keeps it clear of the nesting and size limits of [regexp/syntax]. *)
Definition max_pattern : nat := 256.

Definition parse (expr : string) : option re :=
  if (String.length expr <=? max_pattern)%nat then
    match parse_alt (2 * String.length expr + 2) expr with
    | Some (r, EmptyString) => Some r
    | _ => None
    end
  else None.

(** A literal string followed by [t], and a choice between literal
    strings, as [parse] builds them. *)
Fixpoint lits (w : string) (t : re) : re :=
  match w with
  | EmptyString => t
  | String c w' => Cat (Lit c) (lits w' t)
  end.

Fixpoint alts (ws : list string) : re :=
  match ws with
  | [] => Empty
  | [w] => lits w Empty
  | w :: ws' => Alt (lits w Empty) (alts ws')
  end.

Fixpoint no_newline (w : string) : bool :=
  match w with
  | EmptyString => true
  | String c w' => negb (Ascii.eqb c newline) && no_newline w'
  end.

(** [matches r w rest]: [r] matches exactly [w] when [rest] is what
    follows [w] in the text. *)
Inductive matches : re -> string -> string -> Prop :=
| MEmpty rest : matches Empty "" rest
| MLit c rest : matches (Lit c) (String c "") rest
| MAnyStar w rest : no_newline w = true -> matches AnyStar w rest
| MEndText : matches EndText "" ""
| MCat a b w1 w2 rest :
    matches a w1 (w2 ++ rest) -> matches b w2 rest ->
    matches (Cat a b) (w1 ++ w2) rest
| MAltL a b w rest : matches a w rest -> matches (Alt a b) w rest
| MAltR a b w rest : matches b w rest -> matches (Alt a b) w rest.

End GoRegexp.

(** A host agrees with the model when, on every pattern of the
    fragment, its [regexp.Compile] succeeds and the compiled pattern
    matches what the model matches. *)
Definition agrees_with_model (H : Host) : Prop :=
  forall expr r,
    GoRegexp.parse expr = Some r ->
    exists re,
      regexp_Compile expr = inl re /\
      forall s, MatchString re s = GoRegexp.MatchString r s.

(** ** A concrete host, to run the code on

    Its [regexp] is the model, with an error outside the fragment; its
    file system has two directories and one regular file; it has eight
    processing units; its [unicode.ToLower] leaves a string as it is. *)

Module Example.

Definition compile (expr : string) : GoRegexp.re + string :=
  match GoRegexp.parse expr with
  | Some r => inl r
  | None => inr "error parsing regexp"
  end.

Definition stat (name : string) : FileInfo + string :=
  if (name =? ".")%string then inl (mkFileInfo true)
  else if (name =? "logs")%string then inl (mkFileInfo true)
  else if (name =? "teeworlds.log")%string then inl (mkFileInfo false)
  else inr "no such file or directory".

#[export] Instance host : Host :=
  {| Regexp := GoRegexp.re;
     HostError := string;
     regexp_Compile := compile;
     MatchString := GoRegexp.MatchString;
     os_Stat := stat;
     runtime_NumCPU := 8;
     unicode_ToLower := fun s => s |}.

(** A configuration that passes every check. *)
Definition good : Config :=
  {| PhraseRegex := "kill";
     PhraseRegexp := None;
     SearchDir := "logs";
     FileRegex := ".*\.log$";
     FileRegexp := None;
     Deduplicate := false;
     Extended := false;
     IPsOnly := false;
     Output := "JSON";
     ArchiveRegex := "";
     ArchiveRegexp := None;
     IncludeArchives := false;
     Concurrency := 4 |}.

(** [good] after the overlay has set some of the user's options. *)
Definition overlay (phrase output archive : string)
           (extended ipsOnly includeArchives : bool) (concurrency : Z)
  : Config :=
  {| PhraseRegex := phrase;
     PhraseRegexp := None;
     SearchDir := "logs";
     FileRegex := ".*\.log$";
     FileRegexp := None;
     Deduplicate := false;
     Extended := extended;
     IPsOnly := ipsOnly;
     Output := output;
     ArchiveRegex := archive;
     ArchiveRegexp := None;
     IncludeArchives := includeArchives;
     Concurrency := concurrency |}.

(** Both flags set, everything else valid. *)
Definition both_flags : Config :=
  overlay "kill" "text" "" true true false 4.

(** Both flags set and an output format that does not exist; every
    other field is valid, the archive pattern and the concurrency
    too. *)
Definition both_flags_xml : Config :=
  overlay "kill" "xml" "\.zip$" true true false 4.

(** No worker, everything else valid. *)
Definition no_worker : Config :=
  overlay "kill" "text" "" false false false 0.

(** No worker and no phrase. *)
Definition no_worker_no_phrase : Config :=
  overlay "" "text" "" false false false 0.

(** Archives wanted, with an empty archive pattern. *)
Definition archives_empty_pattern : Config :=
  overlay "kill" "text" "" false false true 4.

(** An archive pattern that is set, archives not wanted. *)
Definition archive_pattern_only : Config :=
  overlay "kill" "text" "\.zip$" false false false 4.

(** A phrase with a group left open. *)
Definition open_group : Config :=
  overlay "kill(" "text" "" false false false 4.

(** [good] searching [dir] for the files that match [fileRegex]. *)
Definition located (dir fileRegex : string) : Config :=
  {| PhraseRegex := "kill";
     PhraseRegexp := None;
     SearchDir := dir;
     FileRegex := fileRegex;
     FileRegexp := None;
     Deduplicate := false;
     Extended := false;
     IPsOnly := false;
     Output := "text";
     ArchiveRegex := "";
     ArchiveRegexp := None;
     IncludeArchives := false;
     Concurrency := 4 |}.

(** [good] with [Deduplicate] set and compiled patterns left over
    from somewhere else. *)
Definition stale : Config :=
  {| PhraseRegex := "kill";
     PhraseRegexp := Some GoRegexp.Empty;
     SearchDir := "logs";
     FileRegex := ".*\.log$";
     FileRegexp := Some GoRegexp.EndText;
     Deduplicate := true;
     Extended := false;
     IPsOnly := false;
     Output := "JSON";
     ArchiveRegex := "";
     ArchiveRegexp := Some GoRegexp.AnyStar;
     IncludeArchives := false;
     Concurrency := 4 |}.

End Example.

(** ** The default patterns in the model *)

(** What [GoRegexp.parse] makes of [FileRegex NewConfig] and of
    [ArchiveRegex NewConfig]. *)
Definition default_file_re : GoRegexp.re :=
  GoRegexp.Cat GoRegexp.AnyStar
    (GoRegexp.lits ".log" (GoRegexp.Cat GoRegexp.EndText GoRegexp.Empty)).

Definition default_archive_re : GoRegexp.re :=
  GoRegexp.Cat (GoRegexp.Lit ".")
    (GoRegexp.Cat
       (GoRegexp.alts
          ["7z"; "bz2"; "gz"; "tar"; "xz"; "zip"; "xz"; "zst"; "lz"])
       (GoRegexp.Cat GoRegexp.EndText GoRegexp.Empty)).

(** The archive extensions the specification lists. *)
Definition archive_extensions : list string :=
  [".7z"; ".bz2"; ".gz"; ".tar"; ".xz"; ".zip"; ".zst"; ".lz"].

(** ** The invariants of section 3 of the specification *)

Section Invariants.

Context `{H : Host}.

(** [compiled] is non-null and is what compiling [expr] gives. *)
Definition compiled_from (expr : string) (compiled : option Regexp) : Prop :=
  exists re, regexp_Compile expr = inl re /\ compiled = Some re.

Definition invariant1 (cfg : Config) : Prop :=
  compiled_from (PhraseRegex cfg) (PhraseRegexp cfg).
Definition invariant2 (cfg : Config) : Prop :=
  exists fi, os_Stat (SearchDir cfg) = inl fi /\ IsDir fi = true.
Definition invariant3 (cfg : Config) : Prop :=
  compiled_from (FileRegex cfg) (FileRegexp cfg).
Definition invariant4 (cfg : Config) : Prop :=
  Output cfg = "json" \/ Output cfg = "text".
Definition invariant5 (cfg : Config) : Prop :=
  ~ (Extended cfg = true /\ IPsOnly cfg = true).
Definition invariant6 (cfg : Config) : Prop :=
  IncludeArchives cfg = true \/ ArchiveRegex cfg <> "" ->
  compiled_from (ArchiveRegex cfg) (ArchiveRegexp cfg).
Definition invariant7 (cfg : Config) : Prop :=
  1 <= Concurrency cfg.

Definition invariants (cfg : Config) : Prop :=
  invariant1 cfg /\ invariant2 cfg /\ invariant3 cfg /\ invariant4 cfg /\
  invariant5 cfg /\ invariant6 cfg /\ invariant7 cfg.

(** Equality of strings up to case, as the code decides it: after
    [strings.ToLower]. *)
Definition equal_ignoring_case (s t : string) : bool :=
  (strings.ToLower s =? strings.ToLower t)%string.

(** Every field [Validate] is not meant to write agrees in [a] and
    [b]. *)
Definition same_inputs (a b : Config) : Prop :=
  PhraseRegex a = PhraseRegex b /\ SearchDir a = SearchDir b /\
  FileRegex a = FileRegex b /\ Deduplicate a = Deduplicate b /\
  Extended a = Extended b /\ IPsOnly a = IPsOnly b /\
  ArchiveRegex a = ArchiveRegex b /\
  IncludeArchives a = IncludeArchives b /\
  Concurrency a = Concurrency b.

End Invariants.

(** ** A call of [Validate] seen from its caller *)

Section Caller.

Context `{H : Host}.

(** Every condition [Validate] tests holds of [cfg]. *)
Definition all_checks_ok (cfg : Config) : bool :=
  reaches_concurrency_check cfg && concurrency_ok cfg.

(** The calls [Validate] can make on [cfg], in the order of its body. *)
Definition possible_calls (cfg : Config) : list Call :=
  [ CallCompile (PhraseRegex cfg); CallStat (SearchDir cfg);
    CallCompile (FileRegex cfg); CallCompile (ArchiveRegex cfg) ].

Definition is_stat (c : Call) : bool :=
  match c with CallStat _ => true | CallCompile _ => false end.

(** The overlay's assignment [cfg.PhraseRegex = phrase]. *)
Definition set_PhraseRegex (phrase : string) (c : Config) : Config :=
  mkConfig phrase (PhraseRegexp c) (SearchDir c) (FileRegex c)
           (FileRegexp c) (Deduplicate c) (Extended c) (IPsOnly c)
           (Output c) (ArchiveRegex c) (ArchiveRegexp c)
           (IncludeArchives c) (Concurrency c).

(** [a] and [b] agree on every field but [Deduplicate] and the three
    compiled patterns. *)
Definition same_options (a b : Config) : Prop :=
  PhraseRegex b = PhraseRegex a /\ SearchDir b = SearchDir a /\
  FileRegex b = FileRegex a /\ Extended b = Extended a /\
  IPsOnly b = IPsOnly a /\ Output b = Output a /\
  ArchiveRegex b = ArchiveRegex a /\
  IncludeArchives b = IncludeArchives a /\
  Concurrency b = Concurrency a.
End Caller.

(** ** Unfolding a call of [Validate] *)

Ltac unfold_validate :=
  unfold validate, run, Validate, bind, when, load, store, Compile, Stat,
    call, ret, return_; cbn [cfg_of calls_of fst snd].

Ltac unfold_guards :=
  unfold reaches_concurrency_check, reaches_archive_check,
    reaches_flags_check, reaches_output_check, required_and_patterns_ok,
    phrase_required_ok, phrase_compiles_ok, search_dir_required_ok,
    search_dir_exists_ok, file_required_ok, file_compiles_ok, output_ok,
    flags_ok, archive_ok, archive_checked, concurrency_ok.

(** Take a hypothesis [G] that control reaches some check apart into
    one hypothesis per condition. *)
Ltac split_guard G :=
  lazymatch type of G with
  | _ && _ = true =>
      let G1 := fresh G in
      let G2 := fresh G in
      apply andb_true_iff in G; destruct G as [G1 G2];
      split_guard G1; split_guard G2
  | negb _ = true => apply negb_true_iff in G
  | _ => idtac
  end.

Ltac reaching G :=
  unfold reaches_concurrency_check, reaches_archive_check,
    reaches_flags_check, reaches_output_check, required_and_patterns_ok,
    phrase_required_ok, phrase_compiles_ok, search_dir_required_ok,
    search_dir_exists_ok, file_required_ok, file_compiles_ok, output_ok,
    flags_ok, archive_ok, archive_checked, concurrency_ok in G;
  split_guard G.

(** Split on the conditions of the body in the order it tests them;
    each split leaves the equation of its branch in the context. *)
Ltac on b := destruct b eqn:?; simpl.

Ltac validate_cases cfg :=
  unfold_validate; simpl;
  on (PhraseRegex cfg =? "")%string; [ |
  on (regexp_Compile (PhraseRegex cfg)); [
  on (SearchDir cfg =? "")%string; [ |
  on (os_Stat (SearchDir cfg)); [
  match goal with f : FileInfo |- _ => on (IsDir f) end; [
  on (FileRegex cfg =? "")%string; [ |
  on (regexp_Compile (FileRegex cfg)); [
  on (isOneOf (strings.ToLower (Output cfg)) [FormatJSON; FormatText]); [
  on (Extended cfg && IPsOnly cfg); [ |
  on (IncludeArchives cfg || negb (ArchiveRegex cfg =? "")%string); [
  on (regexp_Compile (ArchiveRegex cfg)); [
  on (Concurrency cfg <? 1) | ] |
  on (Concurrency cfg <? 1) ] ] | ] | ] ] | ] | ] ] | ] ].

(** Close a branch that is immediate, or whose equations contradict
    what is known of the configuration. *)
Ltac close_branch :=
  try reflexivity;
  try discriminate;
  try congruence;
  repeat match goal with
         | G : context [if ?b then _ else _], E : ?b = _ |- _ =>
             rewrite E in G
         end;
  try match goal with
      | G : compiles ?p = true, E : regexp_Compile ?p = inr _ |- _ =>
          unfold compiles in G; rewrite E in G; discriminate
      | G : is_directory ?d = true, E : os_Stat ?d = inr _ |- _ =>
          unfold is_directory in G; rewrite E in G; discriminate
      | G : is_directory ?d = true, E : os_Stat ?d = inl _ |- _ =>
          unfold is_directory in G; rewrite E in G; congruence
      end.

(** Rewrite the goal with the equations of the branch. *)
Ltac replay :=
  repeat match goal with
         | E : ?t = _ |- context [?t] => rewrite E
         end;
  simpl.

(** Show that control reaches some check from the equations of the
    branch. *)
Ltac reached := unfold_guards; unfold compiles, is_directory; replay.

Ltac unfold_checks :=
  unfold passes, validation_sequence, firstn, run_checks,
    check_phrase_nonempty, check_phrase_compiles, check_search_dir_nonempty,
    check_search_dir_is_directory, check_file_nonempty, check_file_compiles,
    check_output_format, check_flags_exclusive, check_archive_pattern,
    check_concurrency, logged, stored.

(** * Properties *)

(** ** Strings *)

Local Close Scope Z_scope.

Lemma append_assoc (a b c : string) : (a ++ b) ++ c = a ++ (b ++ c).
Proof. induction a as [|x a IH]; simpl; [reflexivity | now rewrite IH]. Qed.

Lemma append_nil_r (a : string) : a ++ "" = a.
Proof. induction a as [|x a IH]; simpl; [reflexivity | now rewrite IH]. Qed.

Lemma length_append (a b : string) :
  String.length (a ++ b) = (String.length a + String.length b)%nat.
Proof. induction a as [|x a IH]; simpl; [reflexivity | now rewrite IH]. Qed.

Lemma substring_all (s : string) : substring 0 (String.length s) s = s.
Proof. induction s as [|x s IH]; simpl; [reflexivity | now rewrite IH]. Qed.

Lemma substring_skip (pre s : string) (m : nat) :
  substring (String.length pre) m (pre ++ s) = substring 0 m s.
Proof. induction pre as [|x pre IH]; simpl; [reflexivity | exact IH]. Qed.

Lemma substring_split (s : string) (n : nat) :
  (n <= String.length s)%nat ->
  s = substring 0 n s ++ substring n (String.length s - n) s.
Proof.
  revert n; induction s as [|x s IH]; intros [|n] Hn; simpl in *.
  - reflexivity.
  - lia.
  - now rewrite substring_all.
  - f_equal. apply IH. lia.
Qed.

Lemma HasSuffix_spec (s suffix : string) :
  HasSuffix s suffix = true <-> exists pre, s = pre ++ suffix.
Proof.
  unfold HasSuffix. rewrite andb_true_iff, Nat.leb_le, String.eqb_eq. split.
  - intros [Hle Heq].
    exists (substring 0 (String.length s - String.length suffix) s).
    pose proof (substring_split s (String.length s - String.length suffix))
      as E.
    replace (String.length s - (String.length s - String.length suffix))%nat
      with (String.length suffix) in E by lia.
    rewrite Heq in E. apply E. lia.
  - intros [pre ->]. rewrite length_append. split; [lia|].
    replace (String.length pre + String.length suffix - String.length suffix)%nat
      with (String.length pre) by lia.
    rewrite substring_skip. apply substring_all.
Qed.

(** ** The matcher of the model against its relation [matches] *)

Section GoRegexpFacts.

Import GoRegexp.

Lemma any_star_spec (s : string) (k : string -> bool) :
any_star s k = true <->
exists w rest, s = w ++ rest /\ no_newline w = true /\ k rest = true.
Proof.
induction s as [|c s IH]; simpl.
- rewrite orb_false_r. split.
  + intros Hk. exists "", "". auto.
  + intros (w & rest & E & _ & Hk). destruct w; [simpl in E; now subst|discriminate].
- rewrite orb_true_iff, andb_true_iff, IH. split.
  + intros [Hk | [Hc (w & rest & -> & Hw & Hk)]].
    * exists "", (String c s). auto.
    * exists (String c w), rest. simpl. rewrite Hc, Hw. auto.
  + intros (w & rest & E & Hw & Hk). destruct w as [|c' w]; simpl in *.
    * left. now subst.
    * right. injection E as <- ->. apply andb_true_iff in Hw as [Hc Hw].
      split; [assumption|]. exists w, rest. auto.
Qed.

Lemma accept_spec (r : re) : forall (s : string) (k : string -> bool),
accept r s k = true <->
exists w rest, s = w ++ rest /\ matches r w rest /\ k rest = true.
Proof.
induction r as [|c| | |a IHa b IHb|a IHa b IHb]; intros s k; simpl.
- split.
  + intros Hk. exists "", s. repeat split; [constructor | assumption].
  + intros (w & rest & -> & Hm & Hk). inversion Hm; subst. assumption.
- destruct s as [|c' s].
  + split; [discriminate|]. intros (w & rest & E & Hm & _).
    inversion Hm; subst. discriminate.
  + rewrite andb_true_iff, Ascii.eqb_eq. split.
    * intros [-> Hk]. exists (String c' ""), s. repeat split; [constructor | assumption].
    * intros (w & rest & E & Hm & Hk). inversion Hm; subst.
      simpl in E. injection E as <- ->. auto.
- rewrite any_star_spec. split; intros (w & rest & E & Hw & Hk); exists w, rest.
  + repeat split; [assumption | now constructor | assumption].
  + inversion Hw; subst. auto.
- destruct s as [|c' s].
  + split.
    * intros Hk. exists "", "". repeat split; [constructor | assumption].
    * intros (w & rest & E & Hm & Hk). inversion Hm; subst. assumption.
  + split; [discriminate|]. intros (w & rest & E & Hm & _).
    inversion Hm; subst. discriminate.
- rewrite IHa. split.
  + intros (w1 & rest1 & -> & Ha & Hb). apply IHb in Hb as (w2 & rest & -> & Hb & Hk).
    exists (w1 ++ w2), rest. rewrite append_assoc.
    repeat split; [now constructor | assumption].
  + intros (w & rest & -> & Hm & Hk). inversion Hm; subst.
    exists w1, (w2 ++ rest). rewrite append_assoc. repeat split; [assumption|].
    apply IHb. exists w2, rest. auto.
- rewrite orb_true_iff, IHa, IHb. split.
  + intros [(w & rest & E & Hm & Hk) | (w & rest & E & Hm & Hk)];
      exists w, rest; repeat split; try assumption;
      [now apply MAltL | now apply MAltR].
  + intros (w & rest & E & Hm & Hk). inversion Hm; subst;
      [left | right]; exists w, rest; auto.
Qed.

Lemma MatchString_spec (r : re) (s : string) :
GoRegexp.MatchString r s = true <->
exists pre w rest, s = pre ++ w ++ rest /\ matches r w rest.
Proof.
induction s as [|c s IH]; simpl; rewrite orb_true_iff, accept_spec.
- split.
  + intros [(w & rest & E & Hm & _) | ?]; [|discriminate].
    exists "", w, rest. auto.
  + intros (pre & w & rest & E & Hm). left. destruct pre; [|discriminate].
    exists w, rest. auto.
- rewrite IH. split.
  + intros [(w & rest & E & Hm & _) | (pre & w & rest & -> & Hm)].
    * exists "", w, rest. auto.
    * exists (String c pre), w, rest. auto.
  + intros (pre & w & rest & E & Hm). destruct pre as [|c' pre]; simpl in E.
    * left. exists w, rest. auto.
    * right. injection E as <- ->. exists pre, w, rest. auto.
Qed.

Lemma matches_lits (w : string) (t : re) (u rest : string) :
matches (lits w t) u rest <-> exists v, u = w ++ v /\ matches t v rest.
Proof.
revert u; induction w as [|c w IH]; intros u; simpl.
- split; [intros Hm; now exists u | now intros (v & -> & Hm)].
- split.
  + intros Hm. inversion Hm as [| | | |a b w1 w2 rest' Hc Ht| |]; subst.
    inversion Hc; subst. apply IH in Ht as (v & -> & Ht).
    exists v. auto.
  + intros (v & -> & Ht). change (String c (w ++ v)) with (String c "" ++ (w ++ v)).
    constructor; [constructor|]. apply IH. now exists v.
Qed.

Lemma matches_alts (ws : list string) (u rest : string) :
ws <> [] -> (matches (alts ws) u rest <-> In u ws).
Proof.
induction ws as [|w ws IH]; [congruence|]. intros _.
assert (Hone : matches (lits w Empty) u rest <-> w = u).
{ rewrite matches_lits. split.
  - intros (v & -> & Hm). inversion Hm; subst. now rewrite append_nil_r.
  - intros <-. exists "". rewrite append_nil_r. split; [reflexivity|constructor]. }
destruct ws as [|w' ws].
- simpl. rewrite Hone. tauto.
- change (alts (w :: w' :: ws)) with (Alt (lits w Empty) (alts (w' :: ws))).
  split.
  + intros Hm. inversion Hm; subst.
    * left. now apply Hone.
    * right. apply IH; [discriminate | assumption].
  + intros [E | Hin].
    * apply MAltL. now apply Hone.
    * apply MAltR. apply IH; [discriminate | assumption].
Qed.

Lemma matches_cat (a b : re) (w rest : string) :
matches (Cat a b) w rest <->
exists w1 w2, w = w1 ++ w2 /\ matches a w1 (w2 ++ rest) /\ matches b w2 rest.
Proof.
split.
- intros Hm. inversion Hm; subst. eauto.
- intros (w1 & w2 & -> & Ha & Hb). now constructor.
Qed.

Lemma matches_end (v rest : string) :
matches (Cat EndText Empty) v rest <-> v = "" /\ rest = "".
Proof.
split.
- intros Hm. inversion Hm as [| | | |a b w1 w2 rest' He Ht| |]; subst.
  inversion Ht; subst. inversion He; subst. auto.
- intros [-> ->]. change "" with ("" ++ "") at 1.
  constructor; constructor.
Qed.

Lemma parse_file : parse ".*\.log$" = Some default_file_re.
Proof. reflexivity. Qed.

Lemma default_file_re_HasSuffix (s : string) :
GoRegexp.MatchString default_file_re s = HasSuffix s ".log".
Proof.
apply eq_true_iff_eq. rewrite MatchString_spec, HasSuffix_spec. split.
- intros (pre & w & rest & -> & Hm). unfold default_file_re in Hm.
  apply matches_cat in Hm as (w1 & w2 & -> & Hs & Ht).
  apply (proj1 (matches_lits ".log" (Cat EndText Empty) _ _)) in Ht
    as (v & -> & Hv).
  apply matches_end in Hv as [-> ->].
  exists (pre ++ w1). now rewrite !append_nil_r, append_assoc.
- intros [pre ->]. exists pre, ".log", "". split; [reflexivity|].
  change ".log" with ("" ++ ".log") at 1. constructor.
  + now constructor.
  + apply (matches_lits ".log"). exists "".
    split; [reflexivity|]. now apply matches_end.
Qed.

Lemma parse_archive :
parse "\.(7z|bz2|gz|tar|xz|zip|xz|zst|lz)$" = Some default_archive_re.
Proof. reflexivity. Qed.

Lemma default_archive_re_HasSuffix (s : string) :
GoRegexp.MatchString default_archive_re s = existsb (HasSuffix s) archive_extensions.
Proof.
apply eq_true_iff_eq. rewrite MatchString_spec, existsb_exists. split.
- intros (pre & w & rest & -> & Hm). unfold default_archive_re in Hm.
  apply matches_cat in Hm as (w1 & w2 & -> & Hd & Ht).
  apply matches_cat in Ht as (u & v & -> & Hu & Hv).
  inversion Hd; subst.
  apply matches_end in Hv as [-> ->].
  apply matches_alts in Hu; [|discriminate].
  exists ("." ++ u). split.
  + simpl in Hu. unfold archive_extensions. simpl.
    repeat (destruct Hu as [<- | Hu]; [simpl; tauto|]). contradiction.
  + apply HasSuffix_spec. exists pre. now rewrite !append_nil_r.
- intros (x & Hin & Hs). apply HasSuffix_spec in Hs as [pre ->].
  assert (exists u, x = "." ++ u /\
            In u ["7z"; "bz2"; "gz"; "tar"; "xz"; "zip"; "xz"; "zst"; "lz"])
    as (u & -> & Hu).
  { unfold archive_extensions in Hin. simpl in Hin.
    repeat (destruct Hin as [<- | Hin];
            [eexists; split; [reflexivity | simpl; tauto]|]).
    contradiction. }
  exists pre, ("." ++ u), "". split; [now rewrite append_nil_r|].
  change ("." ++ u) with (String "." "" ++ u).
  constructor; [constructor|].
  rewrite <- (append_nil_r u). constructor.
  + apply matches_alts; [discriminate | assumption].
  + now apply matches_end.
Qed.

Lemma parse_empty : parse "" = Some Empty.
Proof. reflexivity. Qed.

Lemma Empty_matches_all (s : string) : GoRegexp.MatchString Empty s = true.
Proof. destruct s; reflexivity. Qed.

Lemma example_host_agrees : agrees_with_model Example.host.
Proof.
intros expr r Hp. exists r. simpl. unfold Example.compile. rewrite Hp. auto.
Qed.

End GoRegexpFacts.

Local Open Scope Z_scope.

(** ** [isOneOf] and [strings.ToLower] *)

Lemma isOneOf_In (s : string) (values : list string) :
  isOneOf s values = true <-> In s values.
Proof.
  induction values as [|v values IH]; unfold isOneOf; fold isOneOf.
  - split; [discriminate | contradiction].
  - destruct (String.eqb_spec s v) as [->|Hne]; simpl.
    + tauto.
    + rewrite IH. split; [tauto | intros [E|Hin]; [congruence | exact Hin]].
Qed.

Lemma isOneOf_allowed (s : string) :
  isOneOf s [FormatJSON; FormatText] = ((s =? "json") || (s =? "text"))%string.
Proof.
  unfold isOneOf, FormatJSON, FormatText.
  destruct (s =? "json")%string, (s =? "text")%string; reflexivity.
Qed.

Section Properties.

Context `{H : Host}.

Lemma ToLower_json : strings.ToLower "json" = "json".
Proof. reflexivity. Qed.

Lemma ToLower_text : strings.ToLower "text" = "text".
Proof. reflexivity. Qed.

Lemma output_ok_iff (cfg : Config) :
  output_ok cfg =
  equal_ignoring_case (Output cfg) "json" ||
  equal_ignoring_case (Output cfg) "text".
Proof.
  unfold output_ok, equal_ignoring_case.
  now rewrite isOneOf_allowed, ToLower_json, ToLower_text.
Qed.

(** ** The code against the sequence of the specification *)

Lemma validate_is_sequence (cfg : Config) :
  validate cfg = validate_by_sequence cfg.
Proof.
  unfold validate_by_sequence, outcome_of, validation_sequence, run_checks,
    check_phrase_nonempty, check_phrase_compiles, check_search_dir_nonempty,
    check_search_dir_is_directory, check_file_nonempty, check_file_compiles,
    check_output_format, check_flags_exclusive, check_archive_pattern,
    check_concurrency, logged, stored.
  validate_cases cfg;
    repeat (first [ progress replay
                  | rewrite <- isOneOf_allowed
                  | rewrite Z.geb_leb, Z.leb_antisym ]);
    reflexivity.
Qed.

(** ** Reaching a check

    The conditions under which control reaches the output format, the
    flags, the archive block and the concurrency, read off the code,
    are those under which the first six, seven, eight and nine checks
    of the sequence pass. *)

Ltac guard_cases cfg :=
  unfold_guards; unfold compiles, is_directory; unfold_checks;
  rewrite ?isOneOf_allowed; simpl;
  on (PhraseRegex cfg =? "")%string; [reflexivity|];
  on (regexp_Compile (PhraseRegex cfg)); [|reflexivity];
  on (SearchDir cfg =? "")%string; [reflexivity|];
  on (os_Stat (SearchDir cfg)); [|reflexivity];
  match goal with f : FileInfo |- _ => on (IsDir f) end; [|reflexivity];
  on (FileRegex cfg =? "")%string; [reflexivity|];
  on (regexp_Compile (FileRegex cfg)); [|reflexivity];
  first
    [ reflexivity
    | on ((strings.ToLower (Output cfg) =? "json")
          || (strings.ToLower (Output cfg) =? "text"))%string;
      [|reflexivity];
      first
        [ reflexivity
        | on (Extended cfg && IPsOnly cfg); [reflexivity|];
          first
            [ reflexivity
            | on (IncludeArchives cfg
                  || negb (ArchiveRegex cfg =? "")%string);
              [on (regexp_Compile (ArchiveRegex cfg))|]; reflexivity ] ] ].

Lemma reaches_output_check_sequence (cfg : Config) :
  reaches_output_check cfg = passes (firstn 6 validation_sequence) cfg.
Proof. guard_cases cfg. Qed.

Lemma reaches_flags_check_sequence (cfg : Config) :
  reaches_flags_check cfg = passes (firstn 7 validation_sequence) cfg.
Proof. guard_cases cfg. Qed.

Lemma reaches_archive_check_sequence (cfg : Config) :
  reaches_archive_check cfg = passes (firstn 8 validation_sequence) cfg.
Proof. guard_cases cfg. Qed.

Lemma reaches_concurrency_check_sequence (cfg : Config) :
  reaches_concurrency_check cfg = passes (firstn 9 validation_sequence) cfg.
Proof. guard_cases cfg. Qed.

Lemma run_checks_first_failure (cs : list Check) :
  forall (st st' : State) (e : error),
    run_checks cs st = (st', Some e) ->
    exists pre c post st0,
      cs = (pre ++ c :: post)%list /\
      run_checks pre st = (st0, None) /\
      c st0 = (st', Some e).
Proof.
  induction cs as [|c cs IH]; intros st st' e Hrun; simpl in Hrun.
  - discriminate.
  - destruct (c st) as [st1 [e1|]] eqn:Hc.
    + injection Hrun as <- <-. exists [], c, cs, st. auto.
    + apply IH in Hrun as (pre & c' & post & st0 & -> & Hpre & Hc').
      exists (c :: pre), c', post, st0. simpl. rewrite Hc. auto.
Qed.

(** C2. [Validate] is the run of the ten checks of section 4.2 in the
    order listed there, and when it returns an error that error, the
    configuration left behind and the calls made are those of the
    checks up to the first failing one: none of the later checks
    contributes. *)
Theorem Validate_runs_checks_in_order (cfg : Config) :
  validate cfg = outcome_of (run_checks validation_sequence (mkState cfg []))
  /\
  forall e, result (validate cfg) = Some e ->
    exists pre c post st0 st1,
      validation_sequence = (pre ++ c :: post)%list /\
      run_checks pre (mkState cfg []) = (st0, None) /\
      c st0 = (st1, Some e) /\
      validate cfg = outcome_of (st1, Some e).
Proof.
  split; [apply validate_is_sequence|].
  intros e He. rewrite validate_is_sequence in *.
  unfold validate_by_sequence in *.
  destruct (run_checks validation_sequence (mkState cfg [])) as [st1 r]
    eqn:Hrun.
  simpl in He. subst r.
  destruct (run_checks_first_failure _ _ _ _ Hrun)
    as (pre & c & post & st0 & Hsplit & Hpre & Hc).
  exists pre, c, post, st0, st1. auto.
Qed.

(** C1. When [Validate] returns [nil], the configuration it leaves
    satisfies the seven invariants of section 3. *)
Theorem Validate_success_invariants (cfg : Config) :
  result (validate cfg) = None -> invariants (after (validate cfg)).
Proof.
  validate_cases cfg; intros Hres; try discriminate;
    unfold invariants, invariant1, invariant2, invariant3, invariant4,
      invariant5, invariant6, invariant7, compiled_from; simpl;
    apply isOneOf_In in Heqb3;
    apply andb_false_iff in Heqb4;
    apply Z.ltb_ge in Heqb6;
    (repeat split;
     [ eauto | eauto | eauto
     | destruct Heqb3 as [<-|[<-|[]]]; [now left | now right]
     | intros [He Hi]; rewrite He, Hi in Heqb4; destruct Heqb4; discriminate
     | | assumption ]).
  - intros _. eauto.
  - intros Hor. apply orb_false_iff in Heqb5 as [Hinc Hne].
    apply negb_false_iff, String.eqb_eq in Hne.
    destruct Hor; congruence.
Qed.

(** C3. With an empty [PhraseRegex], [Validate] returns the error of
    the missing phrase regex, has called neither [regexp.Compile] nor
    [os.Stat], and leaves the whole configuration, compiled patterns
    included, as it was. *)
Theorem Validate_empty_phrase (cfg : Config) :
  PhraseRegex cfg = "" ->
  validate cfg = mkOutcome cfg [] (Some ErrPhraseRequired).
Proof.
  intros He. unfold_validate. rewrite He. reflexivity.
Qed.

(** C9. Whatever [Validate] returns, the fields it leaves alone,
    [PhraseRegex], [SearchDir], [FileRegex], [Deduplicate],
    [Extended], [IPsOnly], [ArchiveRegex], [IncludeArchives] and
    [Concurrency], are unchanged. *)
Theorem Validate_frame (cfg : Config) :
  same_inputs (after (validate cfg)) cfg.
Proof.
  unfold same_inputs. validate_cases cfg; repeat split.
Qed.

(** ** The single checks *)

(** C4. On a configuration that passes the six checks before the
    output format: when [Output] equals neither "json" nor "text" up
    to case, [Validate] returns the error of the invalid output
    format, carrying the value as given; when it equals one of them,
    [Validate] does not return that error and has stored [Output]
    back in lower case, whatever the later checks say. *)
Theorem Validate_output_format (cfg : Config) :
  reaches_output_check cfg = true ->
  (equal_ignoring_case (Output cfg) "json" = false ->
   equal_ignoring_case (Output cfg) "text" = false ->
   result (validate cfg) = Some (ErrOutputInvalid (Output cfg))) /\
  (equal_ignoring_case (Output cfg) "json" = true \/
   equal_ignoring_case (Output cfg) "text" = true ->
   (forall value, result (validate cfg) <> Some (ErrOutputInvalid value)) /\
   Output (after (validate cfg)) = strings.ToLower (Output cfg) /\
   (Output (after (validate cfg)) = "json" \/
    Output (after (validate cfg)) = "text")).
Proof.
  intros Hreach.
  assert (Hok := output_ok_iff cfg). unfold output_ok in Hok.
  assert (Hin := isOneOf_In (strings.ToLower (Output cfg))
                   [FormatJSON; FormatText]).
  reaching Hreach. split.
  - intros Hj Ht. rewrite Hj, Ht in Hok. simpl in Hok.
    validate_cases cfg; close_branch.
  - intros Hor.
    assert (Hyes : isOneOf (strings.ToLower (Output cfg))
                     [FormatJSON; FormatText] = true).
    { rewrite Hok. apply orb_true_iff. exact Hor. }
    apply Hin in Hyes as Hcase.
    validate_cases cfg; close_branch;
      (split; [intros value; discriminate|]);
      (split; [reflexivity|]);
      destruct Hcase as [<-|[<-|[]]]; auto.
Qed.

(** C5, as amended. [Validate] returns the error of the mutually
    exclusive flags exactly when [Extended] and [IPsOnly] are both set
    and the seven checks before (required fields, patterns, search
    directory, output format) pass; the archive pattern and the
    concurrency, checked later, have no say. *)
Theorem Validate_mutually_exclusive (cfg : Config) :
  result (validate cfg) = Some ErrMutuallyExclusive <->
  reaches_flags_check cfg = true /\
  Extended cfg = true /\ IPsOnly cfg = true.
Proof.
  split.
  - validate_cases cfg; intros Hres; try discriminate.
    split; [now reached | now apply andb_true_iff].
  - intros (Hreach & He & Hi). reaching Hreach.
    assert (Hboth : Extended cfg && IPsOnly cfg = true)
      by (rewrite He, Hi; reflexivity).
    validate_cases cfg; close_branch.
Qed.

(** C6, as amended. With [Concurrency <= 0], [Validate] never
    returns [nil], and returns the error of the concurrency when the
    nine checks before pass; with [Concurrency >= 1] it never returns
    that error. *)
Theorem Validate_concurrency (cfg : Config) :
  (Concurrency cfg <= 0 ->
   result (validate cfg) <> None /\
   (reaches_concurrency_check cfg = true ->
    result (validate cfg) = Some ErrConcurrency)) /\
  (1 <= Concurrency cfg -> result (validate cfg) <> Some ErrConcurrency).
Proof.
  split.
  - intros Hle. assert (Hlt : (Concurrency cfg <? 1) = true)
      by (apply Z.ltb_lt; lia).
    split.
    + validate_cases cfg; congruence.
    + intros Hreach. reaching Hreach.
      validate_cases cfg; close_branch.
  - intros Hge. assert (Hlt : (Concurrency cfg <? 1) = false)
      by (apply Z.ltb_ge; lia).
    unfold ErrConcurrency.
    validate_cases cfg; first [discriminate | congruence].
Qed.

(** C7. On a configuration that reaches the archive block: when
    [IncludeArchives] is set or [ArchiveRegex] is not empty, a failure
    to compile [ArchiveRegex] is returned as the error of the invalid
    archive regex, and a success is stored in [ArchiveRegexp], control
    going on to the concurrency check; when [IncludeArchives] is
    unset and [ArchiveRegex] is empty, the block does nothing:
    control goes on and [ArchiveRegexp] is what it was, [nil] if it
    was [nil]. *)
Theorem Validate_archive (cfg : Config) :
  reaches_archive_check cfg = true ->
  (IncludeArchives cfg = true \/ ArchiveRegex cfg <> "" ->
   (forall err, regexp_Compile (ArchiveRegex cfg) = inr err ->
      result (validate cfg) = Some (ErrArchiveInvalid err)) /\
   (forall re, regexp_Compile (ArchiveRegex cfg) = inl re ->
      ArchiveRegexp (after (validate cfg)) = Some re /\
      result (validate cfg) = concurrency_result cfg)) /\
  (IncludeArchives cfg = false /\ ArchiveRegex cfg = "" ->
   result (validate cfg) = concurrency_result cfg /\
   ArchiveRegexp (after (validate cfg)) = ArchiveRegexp cfg /\
   (ArchiveRegexp cfg = None ->
    ArchiveRegexp (after (validate cfg)) = None)).
Proof.
  intros Hreach. reaching Hreach. unfold concurrency_result. split.
  - intros Hor.
    assert (Hchk : IncludeArchives cfg || negb (ArchiveRegex cfg =? "")%string
                   = true).
    { destruct Hor as [->|Hne]; [reflexivity|].
      apply String.eqb_neq in Hne. rewrite Hne. apply orb_true_r. }
    split; [intros err Herr | intros re Hre].
    + unfold ErrArchiveInvalid. validate_cases cfg; close_branch.
    + validate_cases cfg; close_branch;
      split; first [reflexivity | congruence].
  - intros [Hinc Hemp].
    assert (Hchk : IncludeArchives cfg || negb (ArchiveRegex cfg =? "")%string
                   = false).
    { rewrite Hinc, Hemp. reflexivity. }
    validate_cases cfg; close_branch; auto.
Qed.

(** The archive block on an empty pattern that must be compiled. *)
Lemma archive_block_on_empty (cfg : Config) (re : Regexp) :
  reaches_archive_check cfg = true ->
  IncludeArchives cfg = true ->
  ArchiveRegex cfg = "" ->
  regexp_Compile "" = inl re ->
  ArchiveRegexp (after (validate cfg)) = Some re /\
  result (validate cfg) = concurrency_result cfg.
Proof.
  intros Hreach Hinc Hemp Hre. reaching Hreach. unfold concurrency_result.
  rewrite <- Hemp in Hre.
  assert (Hchk : IncludeArchives cfg || negb (ArchiveRegex cfg =? "")%string
                 = true) by (rewrite Hinc; reflexivity).
  validate_cases cfg; close_branch;
      split; first [reflexivity | congruence].
Qed.

(** C10. On a host whose [regexp] agrees with the model, a
    configuration that reaches the archive block with
    [IncludeArchives] set and an empty [ArchiveRegex] passes it: the
    empty pattern compiles, the result is stored in [ArchiveRegexp],
    and it matches every string. *)
Theorem Validate_archive_empty_pattern (cfg : Config) :
  agrees_with_model H ->
  reaches_archive_check cfg = true ->
  IncludeArchives cfg = true ->
  ArchiveRegex cfg = "" ->
  exists re,
    regexp_Compile "" = inl re /\
    ArchiveRegexp (after (validate cfg)) = Some re /\
    (forall s, MatchString re s = true) /\
    result (validate cfg) = concurrency_result cfg.
Proof.
  intros Hagree Hreach Hinc Hemp.
  destruct (Hagree "" GoRegexp.Empty parse_empty) as (re & Hre & Hmatch).
  exists re. split; [assumption|].
  destruct (archive_block_on_empty cfg re Hreach Hinc Hemp Hre)
    as [Hset Hres].
  repeat split; try assumption.
  intros s. rewrite Hmatch. apply Empty_matches_all.
Qed.

(** ** The default factory *)

(** C8. [NewConfig] has [SearchDir] ".", [Deduplicate] unset,
    [Output] "text", [Concurrency] the larger of 1 and
    [runtime.NumCPU()], and the three compiled patterns [nil]; on a
    host whose [regexp] agrees with the model, its [FileRegex]
    compiles to a pattern that matches exactly the names ending in
    ".log", and its [ArchiveRegex] to one that matches exactly the
    names ending in one of the eight archive extensions. *)
Theorem NewConfig_defaults :
  agrees_with_model H ->
  SearchDir NewConfig = "." /\
  Deduplicate NewConfig = false /\
  Output NewConfig = "text" /\
  Concurrency NewConfig = Z.max 1 runtime_NumCPU /\
  1 <= Concurrency NewConfig /\
  PhraseRegexp NewConfig = None /\
  FileRegexp NewConfig = None /\
  ArchiveRegexp NewConfig = None /\
  (exists re, regexp_Compile (FileRegex NewConfig) = inl re /\
     forall name, MatchString re name = HasSuffix name ".log") /\
  (exists re, regexp_Compile (ArchiveRegex NewConfig) = inl re /\
     forall name,
       MatchString re name = existsb (HasSuffix name) archive_extensions).
Proof.
  intros Hagree. repeat split; try reflexivity.
  - simpl. lia.
  - destruct (Hagree _ _ parse_file) as (re & Hre & Hm).
    exists re. split; [exact Hre|]. intros name.
    rewrite Hm. apply default_file_re_HasSuffix.
  - destruct (Hagree _ _ parse_archive) as (re & Hre & Hm).
    exists re. split; [exact Hre|]. intros name.
    rewrite Hm. apply default_archive_re_HasSuffix.
Qed.

End Properties.

(** * More of [Validate], [NewConfig] and [isOneOf] *)

Section MoreProperties.

Context `{H : Host}.

Lemma ToLower_allowed (x : string) :
  isOneOf (strings.ToLower x) [FormatJSON; FormatText] = true ->
  strings.ToLower (strings.ToLower x) = strings.ToLower x.
Proof.
  intros Hin. apply isOneOf_In in Hin.
  destruct Hin as [<-|[<-|[]]]; reflexivity.
Qed.

Lemma validate_all_ok (cfg : Config) :
  all_checks_ok cfg = true -> result (validate cfg) = None.
Proof.
  unfold all_checks_ok. intros Hok. apply andb_true_iff in Hok as [Hr Hc].
  reaching Hr. unfold concurrency_ok in Hc. apply negb_true_iff in Hc.
  validate_cases cfg; close_branch.
Qed.

(** X1. [Validate] returns [nil] exactly when every condition it
    tests holds: both required patterns and the search directory are
    given, the patterns compile, the directory exists, the output
    format is known, the two flags are not both set, the archive
    pattern compiles when it is looked at, and there is a worker. *)
Theorem Validate_succeeds_iff (cfg : Config) :
  result (validate cfg) = None <-> all_checks_ok cfg = true.
Proof.
  split; [|apply validate_all_ok].
  unfold all_checks_ok, concurrency_ok.
  validate_cases cfg; intros Hres; try discriminate; now reached.
Qed.

(** X2. Validating the configuration a call of [Validate] has left
    gives the same result, the same calls and the same configuration
    again, whether the first call failed or not. *)
Theorem Validate_idempotent (cfg : Config) :
  validate (after (validate cfg)) = validate cfg.
Proof.
  pose proof (ToLower_allowed (Output cfg)) as Hl.
  validate_cases cfg;
    repeat (first [ progress replay | rewrite Hl by reflexivity ]);
    reflexivity.
Qed.


(** X3. The calls [Validate] makes are, in this order, a prefix of:
    compile the phrase, stat the search directory, compile the file
    pattern, compile the archive pattern.  So [os.Stat] is called at
    most once; and when [Validate] returns [nil] all four calls were
    made if the archive pattern is looked at, the first three if not. *)
Theorem Validate_calls (cfg : Config) :
  (exists n, calls (validate cfg) = firstn n (possible_calls cfg)) /\
  (List.length (filter is_stat (calls (validate cfg))) <= 1)%nat /\
  (result (validate cfg) = None ->
   calls (validate cfg) =
   if archive_checked cfg then possible_calls cfg
   else firstn 3 (possible_calls cfg)).
Proof.
  unfold archive_checked, possible_calls.
  validate_cases cfg;
    (split;
     [ first [ now exists 0%nat | now exists 1%nat | now exists 2%nat
             | now exists 3%nat | now exists 4%nat ]
     | split; [simpl; lia | intros Hres; first [discriminate | reflexivity]] ]).
Qed.

(** X4. A phrase regex that is given but does not compile makes
    [Validate] return the error of the invalid regex around the error
    of [regexp.Compile], after that one call, with the configuration
    untouched. *)
Theorem Validate_invalid_phrase (cfg : Config) (err : HostError) :
  PhraseRegex cfg <> "" ->
  regexp_Compile (PhraseRegex cfg) = inr err ->
  validate cfg =
  mkOutcome cfg [CallCompile (PhraseRegex cfg)] (Some (ErrPhraseInvalid err)).
Proof.
  intros Hne Herr. apply String.eqb_neq in Hne.
  unfold_validate. rewrite Hne. simpl. rewrite Herr. reflexivity.
Qed.

(** X5. Once the phrase regex has compiled: an empty [SearchDir]
    gives the error of the missing search directory without a call of
    [os.Stat]; a [SearchDir] on which [os.Stat] fails gives the error
    of the invalid search directory around the error of [os.Stat]; one
    that is not a directory gives the error that says so.  In all three
    cases the compiled phrase is already stored. *)
Theorem Validate_search_dir (cfg : Config) (re : Regexp) :
  PhraseRegex cfg <> "" ->
  regexp_Compile (PhraseRegex cfg) = inl re ->
  (SearchDir cfg = "" ->
   validate cfg =
   mkOutcome (set_PhraseRegexp (Some re) cfg)
             [CallCompile (PhraseRegex cfg)] (Some ErrSearchDirRequired)) /\
  (SearchDir cfg <> "" ->
   (forall err, os_Stat (SearchDir cfg) = inr err ->
      validate cfg =
      mkOutcome (set_PhraseRegexp (Some re) cfg)
                [CallCompile (PhraseRegex cfg); CallStat (SearchDir cfg)]
                (Some (ErrSearchDirInvalid err))) /\
   (forall fi, os_Stat (SearchDir cfg) = inl fi -> IsDir fi = false ->
      validate cfg =
      mkOutcome (set_PhraseRegexp (Some re) cfg)
                [CallCompile (PhraseRegex cfg); CallStat (SearchDir cfg)]
                (Some ErrSearchDirNotDir))).
Proof.
  intros Hne Hre. apply String.eqb_neq in Hne. split.
  - intros Hd. unfold_validate. rewrite Hne. simpl. rewrite Hre. simpl.
    rewrite Hd. reflexivity.
  - intros Hd. apply String.eqb_neq in Hd. split.
    + intros err Herr. unfold_validate. rewrite Hne. simpl. rewrite Hre.
      simpl. rewrite Hd. simpl. rewrite Herr. reflexivity.
    + intros fi Hfi Hdir. unfold_validate. rewrite Hne. simpl. rewrite Hre.
      simpl. rewrite Hd. simpl. rewrite Hfi. simpl. rewrite Hdir.
      reflexivity.
Qed.

(** X6. Once the phrase regex has compiled and the search directory
    is in place: an empty [FileRegex] gives the error of the missing
    file regex without compiling anything more, and one that does not
    compile gives the error of the invalid file regex around the error
    of [regexp.Compile]; the compiled phrase is already stored. *)
Theorem Validate_file_regex (cfg : Config) (re : Regexp) :
  PhraseRegex cfg <> "" ->
  regexp_Compile (PhraseRegex cfg) = inl re ->
  SearchDir cfg <> "" ->
  is_directory (SearchDir cfg) = true ->
  (FileRegex cfg = "" ->
   validate cfg =
   mkOutcome (set_PhraseRegexp (Some re) cfg)
             [CallCompile (PhraseRegex cfg); CallStat (SearchDir cfg)]
             (Some ErrFileRequired)) /\
  (FileRegex cfg <> "" ->
   forall err, regexp_Compile (FileRegex cfg) = inr err ->
     validate cfg =
     mkOutcome (set_PhraseRegexp (Some re) cfg)
               [CallCompile (PhraseRegex cfg); CallStat (SearchDir cfg);
                CallCompile (FileRegex cfg)]
               (Some (ErrFileInvalid err))).
Proof.
  intros Hne Hre Hd Hdir.
  apply String.eqb_neq in Hne. apply String.eqb_neq in Hd.
  unfold is_directory in Hdir.
  destruct (os_Stat (SearchDir cfg)) as [fi|] eqn:Hfi; [|discriminate].
  split.
  - intros Hf. unfold_validate. rewrite Hne. simpl. rewrite Hre. simpl.
    rewrite Hd. simpl. rewrite Hfi. simpl. rewrite Hdir. simpl.
    rewrite Hf. reflexivity.
  - intros Hf err Herr. apply String.eqb_neq in Hf.
    unfold_validate. rewrite Hne. simpl. rewrite Hre. simpl.
    rewrite Hd. simpl. rewrite Hfi. simpl. rewrite Hdir. simpl.
    rewrite Hf. simpl. rewrite Herr. reflexivity.
Qed.


(** X7. What [Validate] leaves in the four fields it writes, on
    success and on failure alike: [PhraseRegexp] is the compiled phrase
    once the phrase is given and compiles, [FileRegexp] the compiled
    file pattern once control is past it, [Output] is in lower case
    once it is found valid, [ArchiveRegexp] the compiled archive
    pattern once it is looked at and compiles; before that each field
    is what it was. *)
Theorem Validate_writes (cfg : Config) :
  let cfg' := after (validate cfg) in
  (if phrase_required_ok cfg && phrase_compiles_ok cfg
   then compiled_from (PhraseRegex cfg) (PhraseRegexp cfg')
   else PhraseRegexp cfg' = PhraseRegexp cfg) /\
  (if reaches_output_check cfg
   then compiled_from (FileRegex cfg) (FileRegexp cfg')
   else FileRegexp cfg' = FileRegexp cfg) /\
  (if reaches_flags_check cfg
   then Output cfg' = strings.ToLower (Output cfg)
   else Output cfg' = Output cfg) /\
  (if reaches_archive_check cfg && archive_checked cfg &&
      compiles (ArchiveRegex cfg)
   then compiled_from (ArchiveRegex cfg) (ArchiveRegexp cfg')
   else ArchiveRegexp cfg' = ArchiveRegexp cfg).
Proof.
  unfold compiled_from. unfold_guards. unfold compiles, is_directory.
  validate_cases cfg; repeat split; replay; eauto.
Qed.

(** X8. An error [Validate] returns is one of eleven, and the error
    wrapped in each of the four that wrap one is the error
    [regexp.Compile] or [os.Stat] returned for that very field. *)
Theorem Validate_errors (cfg : Config) (e : error) :
  result (validate cfg) = Some e ->
  e = ErrPhraseRequired \/
  (exists err, regexp_Compile (PhraseRegex cfg) = inr err /\
               e = ErrPhraseInvalid err) \/
  e = ErrSearchDirRequired \/
  (exists err, os_Stat (SearchDir cfg) = inr err /\
               e = ErrSearchDirInvalid err) \/
  e = ErrSearchDirNotDir \/
  e = ErrFileRequired \/
  (exists err, regexp_Compile (FileRegex cfg) = inr err /\
               e = ErrFileInvalid err) \/
  e = ErrOutputInvalid (Output cfg) \/
  e = ErrMutuallyExclusive \/
  (exists err, regexp_Compile (ArchiveRegex cfg) = inr err /\
               e = ErrArchiveInvalid err) \/
  e = ErrConcurrency.
Proof.
  validate_cases cfg; intros Hres; try discriminate;
    injection Hres as <-.
  - now left.
  - do 2 right. now left.
  - do 5 right. now left.
  - do 8 right. now left.
  - do 10 right. reflexivity.
  - do 9 right. left. eauto.
  - do 10 right. reflexivity.
  - do 7 right. now left.
  - do 6 right. left. eauto.
  - do 4 right. now left.
  - do 3 right. left. eauto.
  - right. left. eauto.
Qed.

(** X9. [Validate] reads neither [Deduplicate] nor what the three
    compiled patterns held before: two configurations that agree on the
    other fields get the same result, the same calls and the same
    [Output], and on success the same compiled phrase and file
    pattern. *)
Theorem Validate_ignores (a b : Config) :
  same_options a b ->
  result (validate b) = result (validate a) /\
  calls (validate b) = calls (validate a) /\
  Output (after (validate b)) = Output (after (validate a)) /\
  (result (validate a) = None ->
   PhraseRegexp (after (validate b)) = PhraseRegexp (after (validate a)) /\
   FileRegexp (after (validate b)) = FileRegexp (after (validate a))).
Proof.
  intros (Hp & Hd & Hf & He & Hi & Ho & Har & Hin & Hc).
  validate_cases a; repeat (progress replay);
    repeat split; try reflexivity; intros; discriminate.
Qed.

(** X10. [isOneOf] answers [true] exactly for the strings that are an
    element of [values], compared byte for byte. *)
Theorem isOneOf_iff (s : string) (values : list string) :
  (isOneOf s values = true <-> In s values) /\
  (isOneOf s values = false <-> ~ In s values).
Proof.
  pose proof (isOneOf_In s values) as Hin. split; [exact Hin|].
  destruct (isOneOf s values); split; intros Hx;
    try discriminate; try reflexivity.
  - exfalso. apply Hx. now apply Hin.
  - intros Hy. apply Hin in Hy. discriminate.
Qed.

(** X11. On a host whose [regexp] agrees with the model and whose
    working directory "." is a directory, the defaults of [NewConfig]
    with any phrase that is given and compiles pass [Validate]; and
    since the default archive pattern is not empty, [ArchiveRegexp] is
    set, to a pattern that matches exactly the names with an archive
    extension, although [IncludeArchives] is unset. *)
Theorem NewConfig_with_phrase (phrase : string) :
  agrees_with_model H ->
  is_directory "." = true ->
  phrase <> "" ->
  compiles phrase = true ->
  let out := validate (set_PhraseRegex phrase NewConfig) in
  result out = None /\
  Output (after out) = "text" /\
  IncludeArchives (after out) = false /\
  exists re,
    ArchiveRegexp (after out) = Some re /\
    forall name,
      MatchString re name = existsb (HasSuffix name) archive_extensions.
Proof.
  intros Hagree Hdir Hne Hc.
  destruct (Hagree _ _ parse_file) as (fre & Hfre & _).
  destruct (Hagree _ _ parse_archive) as (are & Hare & Hm).
  apply String.eqb_neq in Hne.
  unfold compiles in Hc.
  destruct (regexp_Compile phrase) as [pre|] eqn:Hpre; [|discriminate].
  unfold is_directory in Hdir.
  destruct (os_Stat ".") as [fi|] eqn:Hfi; [|discriminate].
  assert (Hconc : (Z.max 1 runtime_NumCPU <? 1) = false)
    by (apply Z.ltb_ge; lia).
  assert (Hrun : validate (set_PhraseRegex phrase NewConfig) =
                 mkOutcome
                   (set_ArchiveRegexp (Some are)
                      (set_Output "text"
                         (set_FileRegexp (Some fre)
                            (set_PhraseRegexp (Some pre)
                               (set_PhraseRegex phrase NewConfig)))))
                   (possible_calls (set_PhraseRegex phrase NewConfig))
                   None).
  { unfold_validate. simpl. rewrite Hne. simpl. rewrite Hpre. simpl.
    rewrite Hfi. simpl. rewrite Hdir. simpl.
    simpl in Hfre. rewrite Hfre. simpl.
    simpl in Hare. rewrite Hare. simpl. rewrite Hconc. reflexivity. }
  simpl. rewrite Hrun. simpl. repeat split.
  exists are. split; [reflexivity|]. intros name.
  rewrite Hm. apply default_archive_re_HasSuffix.
Qed.

End MoreProperties.

(** * The theorems at work on the concrete host *)

Local Open Scope string_scope.

#[local] Existing Instance Example.host.

(** "JSON" and "Text" equal "json" and "text" up to case, on any host:
    they are ASCII. *)
Lemma JSON_Text_equal_ignoring_case `{H : Host} :
  equal_ignoring_case "JSON" "json" = true /\
  equal_ignoring_case "Text" "text" = true.
Proof. split; reflexivity. Qed.

Lemma Validate_success_invariants_witness :
  result (validate Example.good) = None /\
  invariants (after (validate Example.good)).
Proof.
  split; [reflexivity|].
  apply (Validate_success_invariants Example.good). reflexivity.
Defined.

Lemma Validate_runs_checks_in_order_witness :
  result (validate Example.both_flags_xml) = Some (ErrOutputInvalid "xml") /\
  exists pre c post st0 st1,
    validation_sequence = (pre ++ c :: post)%list /\
    run_checks pre (mkState Example.both_flags_xml []) = (st0, None) /\
    c st0 = (st1, Some (ErrOutputInvalid "xml")) /\
    validate Example.both_flags_xml =
    outcome_of (st1, Some (ErrOutputInvalid "xml")).
Proof.
  split; [reflexivity|].
  apply (proj2 (Validate_runs_checks_in_order Example.both_flags_xml)).
  reflexivity.
Defined.

Lemma Validate_empty_phrase_witness :
  PhraseRegex (@NewConfig Example.host) = "" /\
  validate (@NewConfig Example.host) =
  mkOutcome NewConfig [] (Some ErrPhraseRequired).
Proof.
  split; [reflexivity|].
  apply (Validate_empty_phrase (@NewConfig Example.host)). reflexivity.
Defined.

Lemma Validate_output_format_witness :
  reaches_output_check Example.good = true /\
  Output (after (validate Example.good)) = "json" /\
  reaches_output_check Example.both_flags_xml = true /\
  result (validate Example.both_flags_xml) = Some (ErrOutputInvalid "xml").
Proof.
  split; [reflexivity|]. split.
  - destruct (Validate_output_format Example.good eq_refl) as [_ Hyes].
    destruct (Hyes (or_introl eq_refl)) as (_ & Hlower & _).
    exact Hlower.
  - split; [reflexivity|].
    destruct (Validate_output_format Example.both_flags_xml eq_refl)
      as [Hno _].
    exact (Hno eq_refl eq_refl).
Defined.

(** C5 as stated fails: with both flags set, every required field
    present, every pattern compiling, the search directory in place
    and a valid concurrency, [Validate] on an output format "xml"
    returns the error of the output format, not the error of the
    mutually exclusive flags. *)
Lemma Validate_mutually_exclusive_counterexample :
  Extended Example.both_flags_xml = true /\
  IPsOnly Example.both_flags_xml = true /\
  required_and_patterns_ok Example.both_flags_xml = true /\
  search_dir_exists_ok Example.both_flags_xml = true /\
  archive_ok Example.both_flags_xml = true /\
  concurrency_ok Example.both_flags_xml = true /\
  result (validate Example.both_flags_xml) = Some (ErrOutputInvalid "xml") /\
  result (validate Example.both_flags_xml) <> Some ErrMutuallyExclusive.
Proof. repeat split; try reflexivity. discriminate. Qed.

Lemma Validate_mutually_exclusive_witness :
  (reaches_flags_check Example.both_flags = true /\
   Extended Example.both_flags = true /\
   IPsOnly Example.both_flags = true) /\
  result (validate Example.both_flags) = Some ErrMutuallyExclusive.
Proof.
  split; [repeat split|].
  apply (proj2 (Validate_mutually_exclusive Example.both_flags)).
  repeat split.
Defined.

(** C6 as stated fails: with [Concurrency] 0 and no phrase regex,
    [Validate] returns the error of the missing phrase regex, not the
    error of the concurrency. *)
Lemma Validate_concurrency_counterexample :
  (Concurrency Example.no_worker_no_phrase <= 0)%Z /\
  result (validate Example.no_worker_no_phrase) = Some ErrPhraseRequired /\
  result (validate Example.no_worker_no_phrase) <> Some ErrConcurrency.
Proof. repeat split; [simpl; lia | discriminate]. Qed.

Lemma Validate_concurrency_witness :
  ((Concurrency Example.no_worker <= 0)%Z /\
   reaches_concurrency_check Example.no_worker = true /\
   result (validate Example.no_worker) = Some ErrConcurrency) /\
  ((1 <= Concurrency Example.good)%Z /\
   result (validate Example.good) <> Some ErrConcurrency).
Proof.
  split.
  - split; [simpl; lia|]. split; [reflexivity|].
    destruct (proj1 (Validate_concurrency Example.no_worker)) as [_ Hret];
      [simpl; lia|].
    apply Hret. reflexivity.
  - split; [simpl; lia|].
    apply (proj2 (Validate_concurrency Example.good)). simpl; lia.
Defined.

Lemma Validate_archive_witness :
  reaches_archive_check Example.archive_pattern_only = true /\
  ArchiveRegexp (after (validate Example.archive_pattern_only)) =
  Some (GoRegexp.lits ".zip" (GoRegexp.Cat GoRegexp.EndText GoRegexp.Empty)) /\
  reaches_archive_check Example.good = true /\
  ArchiveRegexp (after (validate Example.good)) = None.
Proof.
  split; [reflexivity|]. split.
  - destruct (Validate_archive Example.archive_pattern_only eq_refl)
      as [Hon _].
    destruct Hon as [_ Hstored]; [right; discriminate|].
    apply (Hstored _ eq_refl).
  - split; [reflexivity|].
    destruct (Validate_archive Example.good eq_refl) as [_ Hoff].
    destruct (Hoff (conj eq_refl eq_refl)) as (_ & _ & Hnil).
    apply Hnil. reflexivity.
Defined.

Lemma Validate_archive_empty_pattern_witness :
  reaches_archive_check Example.archives_empty_pattern = true /\
  exists re,
    regexp_Compile "" = inl re /\
    ArchiveRegexp (after (validate Example.archives_empty_pattern)) =
    Some re /\
    (forall s, MatchString re s = true) /\
    result (validate Example.archives_empty_pattern) =
    concurrency_result Example.archives_empty_pattern.
Proof.
  split; [reflexivity|].
  apply (Validate_archive_empty_pattern Example.archives_empty_pattern).
  - exact example_host_agrees.
  - reflexivity.
  - reflexivity.
  - reflexivity.
Defined.

Lemma NewConfig_defaults_witness :
  Concurrency (@NewConfig Example.host) = 8%Z /\
  exists re,
    regexp_Compile (FileRegex (@NewConfig Example.host)) = inl re /\
    forall name, MatchString re name = HasSuffix name ".log".
Proof.
  destruct (@NewConfig_defaults Example.host example_host_agrees)
    as (_ & _ & _ & Hconc & _ & _ & _ & _ & Hfile & _).
  split; [exact Hconc | exact Hfile].
Defined.

Lemma Validate_succeeds_iff_witness :
  all_checks_ok Example.good = true /\
  result (validate Example.good) = None.
Proof.
  split; [reflexivity|].
  apply (proj2 (Validate_succeeds_iff Example.good)). reflexivity.
Defined.

Lemma Validate_calls_witness :
  result (validate Example.archive_pattern_only) = None /\
  calls (validate Example.archive_pattern_only) =
  [CallCompile "kill"; CallStat "logs"; CallCompile ".*\.log$";
   CallCompile "\.zip$"].
Proof.
  split; [reflexivity|].
  destruct (Validate_calls Example.archive_pattern_only) as (_ & _ & Hok).
  exact (Hok eq_refl).
Defined.

Lemma Validate_invalid_phrase_witness :
  PhraseRegex Example.open_group <> "" /\
  regexp_Compile (PhraseRegex Example.open_group) =
  inr "error parsing regexp" /\
  validate Example.open_group =
  mkOutcome Example.open_group [CallCompile "kill("]
            (Some (ErrPhraseInvalid "error parsing regexp")).
Proof.
  split; [discriminate|]. split; [reflexivity|].
  apply (Validate_invalid_phrase Example.open_group).
  - discriminate.
  - reflexivity.
Defined.

Lemma Validate_search_dir_witness :
  PhraseRegex (Example.located "teeworlds.log" ".*\.log$") <> "" /\
  SearchDir (Example.located "teeworlds.log" ".*\.log$") <> "" /\
  os_Stat "teeworlds.log" = inl (mkFileInfo false) /\
  result (validate (Example.located "teeworlds.log" ".*\.log$")) =
  Some ErrSearchDirNotDir.
Proof.
  split; [discriminate|]. split; [discriminate|]. split; [reflexivity|].
  destruct (Validate_search_dir
              (Example.located "teeworlds.log" ".*\.log$")
              (GoRegexp.lits "kill" GoRegexp.Empty))
    as [_ Hgiven]; [discriminate | reflexivity |].
  destruct Hgiven as [_ Hfile]; [discriminate|].
  rewrite (Hfile (mkFileInfo false) eq_refl eq_refl). reflexivity.
Defined.

Lemma Validate_file_regex_witness :
  is_directory (SearchDir (Example.located "logs" "")) = true /\
  FileRegex (Example.located "logs" "") = "" /\
  result (validate (Example.located "logs" "")) = Some ErrFileRequired.
Proof.
  split; [reflexivity|]. split; [reflexivity|].
  destruct (Validate_file_regex
              (Example.located "logs" "")
              (GoRegexp.lits "kill" GoRegexp.Empty))
    as [Hempty _]; [discriminate | reflexivity | discriminate | reflexivity |].
  rewrite (Hempty eq_refl). reflexivity.
Defined.

Lemma Validate_errors_witness :
  result (validate Example.both_flags_xml) = Some (ErrOutputInvalid "xml") /\
  ErrOutputInvalid "xml" =
  ErrOutputInvalid (Output Example.both_flags_xml).
Proof.
  split; [reflexivity|].
  destruct (Validate_errors Example.both_flags_xml
              (ErrOutputInvalid "xml") eq_refl)
    as [E|[(err & _ & E)|[E|[(err & _ & E)|[E|[E|[(err & _ & E)|[E|[E|
        [(err & _ & E)|E]]]]]]]]]];
    try discriminate E.
  exact E.
Defined.

Lemma Validate_ignores_witness :
  same_options Example.good Example.stale /\
  result (validate Example.stale) = result (validate Example.good) /\
  PhraseRegexp (after (validate Example.stale)) =
  PhraseRegexp (after (validate Example.good)).
Proof.
  assert (Hsame : same_options Example.good Example.stale)
    by (repeat split).
  split; [exact Hsame|].
  destruct (Validate_ignores Example.good Example.stale Hsame)
    as (Hres & _ & _ & Hpat).
  split; [exact Hres|].
  destruct (Hpat eq_refl) as [Hphrase _]. exact Hphrase.
Defined.

Lemma NewConfig_with_phrase_witness :
  is_directory "." = true /\
  compiles "kill" = true /\
  result (validate (set_PhraseRegex "kill" NewConfig)) = None /\
  exists re,
    ArchiveRegexp (after (validate (set_PhraseRegex "kill" NewConfig))) =
    Some re /\
    forall name,
      MatchString re name = existsb (HasSuffix name) archive_extensions.
Proof.
  split; [reflexivity|]. split; [reflexivity|].
  destruct (@NewConfig_with_phrase Example.host "kill" example_host_agrees)
    as (Hres & _ & _ & Hre);
    [reflexivity | discriminate | reflexivity |].
  split; [exact Hres | exact Hre].
Defined.

